(** * color_legend_gradient.js: the colour-legend gradient painter

    The repository's one function, [color_gradient], takes a 2D drawing
    context, asks it for a vertical linear gradient, registers two colour
    stops on the gradient, makes the gradient the context's fill style,
    fills one rectangle and returns the context.

    The context is a duck-typed JavaScript object the caller owns; the
    function only talks to it.  The development therefore embeds the
    function as a program over the requests it sends to its environment
    (method invocations and property assignments) and runs it against an
    arbitrary host that answers every request by returning a value or by
    throwing one.  A recording canvas, in the style of a test mock, is the
    concrete host the examples run on. *)

From stdpp Require Import base decidable option list strings gmap.
From Stdlib Require Import ZArith.

Local Open Scope Z_scope.
Local Open Scope string_scope.
Local Open Scope list_scope.

(** ** JavaScript values *)

(** Objects are known by reference: two [VObj] values are the same object
    exactly when their locations are equal.  The numeric literals of the
    source are small integers, written as they are; a primitive the
    function never builds (a non-integral number, a symbol, ...) is kept
    opaque under a tag, so that a host may still hand one over. *)
Inductive value : Type :=
| VUndefined
| VNull
| VBool (b : bool)
| VNum (n : Z)
| VStr (s : string)
| VOpaque (tag : N)
| VObj (l : positive).

#[global] Instance value_eq_dec : EqDecision value.
Proof. solve_decision. Defined.

#[global] Instance value_inhabited : Inhabited value := populate VUndefined.

(** ** What a function can ask of its environment *)

(** [Invoke o m args] is the expression [o.m(args)]: the lookup of [m] on
    [o] followed by the call with [o] as receiver.  [Assign o p v] is the
    statement [o.p = v] of strict-mode module code. *)
Inductive request : Type :=
| Invoke (recv : value) (meth : string) (args : list value)
| Assign (recv : value) (prop : string) (v : value).

#[global] Instance request_eq_dec : EqDecision request.
Proof. solve_decision. Defined.

(** The environment answers with a value or with a thrown value.  A
    [Thrown] answer covers every way the request can fail: the method's
    own exception, a setter's, or the engine's [TypeError] for a receiver
    that is [null], [undefined] or has no such callable member. *)
Inductive reply : Type :=
| Returned (v : value)
| Thrown (e : value).

#[global] Instance reply_eq_dec : EqDecision reply.
Proof. solve_decision. Defined.

Definition is_returned (r : reply) : bool :=
  match r with Returned _ => true | Thrown _ => false end.

(** ** Straight-line programs over requests *)

Inductive js (A : Type) : Type :=
| Ret (a : A)
| Ask (q : request) (k : value → js A).

Arguments Ret {A} a.
Arguments Ask {A} q k.

Fixpoint js_bind {A B} (f : A → js B) (m : js A) : js B :=
  match m with
  | Ret a => f a
  | Ask q k => Ask q (λ v, js_bind f (k v))
  end.

#[global] Instance js_mret : MRet js := @Ret.
#[global] Instance js_mbind : MBind js := @js_bind.

Definition invoke (recv : value) (meth : string) (args : list value) : js value :=
  Ask (Invoke recv meth args) Ret.

Definition assign (recv : value) (prop : string) (v : value) : js unit :=
  Ask (Assign recv prop v) (λ _, Ret tt).

(** ** The function *)

(** [export function color_gradient(ctx)], statement by statement. *)
Definition color_gradient (ctx : value) : js value :=
  gradient ← invoke ctx "createLinearGradient" [VNum 0; VNum 0; VNum 0; VNum 180];
  invoke gradient "addColorStop" [VNum 0; VStr "red"];;
  invoke gradient "addColorStop" [VNum 1; VStr "black"];;
  assign ctx "fillStyle" gradient;;
  invoke ctx "fillRect" [VNum 5; VNum 0; VNum 15; VNum 180];;
  mret ctx.

(** Two calls in a row on one context, [color_gradient(ctx);
    color_gradient(ctx)], keeping the second call's value. *)
Definition color_gradient_twice (ctx : value) : js value :=
  color_gradient ctx;; color_gradient ctx.

(** ** Running a program against a host *)

Inductive completion (A : Type) : Type :=
| Normal (a : A)
| Abrupt (e : value).

Arguments Normal {A} a.
Arguments Abrupt {A} e.

Definition event : Type := request * reply.

Record result (W A : Type) : Type := Result {
  trace : list event;
  final : W;
  outcome : completion A
}.

Arguments Result {W A} trace final outcome.
Arguments trace {W A} r.
Arguments final {W A} r.
Arguments outcome {W A} r.

(** A host is a state machine over worlds [W]; [respond w q] is the world
    after the request and the answer to it.  The program has no handler,
    so the first thrown answer ends the run with that very value. *)
Fixpoint run {W A} (respond : W → request → W * reply) (p : js A) (w : W)
  : result W A :=
  match p with
  | Ret a => Result [] w (Normal a)
  | Ask q k =>
      let '(w', r) := respond w q in
      match r with
      | Thrown e => Result [(q, r)] w' (Abrupt e)
      | Returned v =>
          let rest := run respond (k v) w' in
          Result ((q, r) :: trace rest) (final rest) (outcome rest)
      end
  end.

(** ** Reading a trace *)

Definition requests (tr : list event) : list request := tr.*1.

(** Every request of the run got an answer, none threw. *)
Definition answered (tr : list event) : bool :=
  forallb (λ e, is_returned e.2) tr.

Definition calls (m : string) (q : request) : bool :=
  match q with
  | Invoke _ m' _ => String.eqb m' m
  | Assign _ _ _ => false
  end.

Definition assigns (q : request) : bool :=
  match q with
  | Invoke _ _ _ => false
  | Assign _ _ _ => true
  end.

Definition receiver (q : request) : value :=
  match q with
  | Invoke o _ _ => o
  | Assign o _ _ => o
  end.

Definition addressed_to (o : value) (q : request) : bool :=
  bool_decide (receiver q = o).

(** [a] is sent, and sent before [b] is sent for the first time. *)
Definition sent_before (a b : request) (l : list request) : Prop :=
  ∃ l1 l2 l3 : list request,
    l = l1 ++ a :: l2 ++ b :: l3 ∧ (b ∉ l1) ∧ (b ≠ a) ∧ (b ∉ l2).

(** ** The requests of one call, by name *)

Definition create_gradient (ctx : value) : request :=
  Invoke ctx "createLinearGradient" [VNum 0; VNum 0; VNum 0; VNum 180].
Definition stop_red (g : value) : request :=
  Invoke g "addColorStop" [VNum 0; VStr "red"].
Definition stop_black (g : value) : request :=
  Invoke g "addColorStop" [VNum 1; VStr "black"].
Definition set_fill_style (ctx g : value) : request :=
  Assign ctx "fillStyle" g.
Definition fill_rect (ctx : value) : request :=
  Invoke ctx "fillRect" [VNum 5; VNum 0; VNum 15; VNum 180].

(** The run opens with [ctx.createLinearGradient(0, 0, 0, 180)], which the
    context answers with [g]: the object the source binds to [gradient]. *)
Definition hands_out (ctx g : value) (tr : list event) : Prop :=
  head tr = Some (create_gradient ctx, Returned g).

(** What a complete call sends when the context hands out gradient [g]. *)
Definition script (ctx g : value) : list request :=
  [create_gradient ctx; stop_red g; stop_black g; set_fill_style ctx g; fill_rect ctx].

(** ** What the caller can observe of a context *)

(** The three methods the function uses. *)
Definition drawing_methods : list string :=
  ["createLinearGradient"; "addColorStop"; "fillRect"].

(** [read w p] stands for the caller's [ctx.p] in world [w].  A host is a
    plain drawing context at [ctx] when an assignment to a property of
    [ctx] is what a later read of that property gives, touches no other
    property of [ctx], and the three drawing methods touch none at all
    (they allocate, record stops and paint). *)
Record plain_context {W : Type} (respond : W → request → W * reply)
    (read : W → string → value) (ctx : value) : Prop := PlainContext {
  assign_stores : ∀ w p v w' u,
    respond w (Assign ctx p v) = (w', Returned u) → read w' p = v;
  assign_frame : ∀ w p v w' r p',
    respond w (Assign ctx p v) = (w', r) → p' ≠ p → read w' p' = read w p';
  invoke_frame : ∀ w o m args w' r p,
    m ∈ drawing_methods →
    respond w (Invoke o m args) = (w', r) → read w' p = read w p
}.

(** ** A recording canvas *)

(** Modelled from the spec: the drawing context is the caller's, not the
    repository's; the theorems take it as a parameter, and this canvas is
    one implementation of the four capabilities the function consumes, for
    the examples to run on.  It works in the manner of a test double: it
    keeps its properties in a table, hands out a new gradient object on every
    [createLinearGradient], appends the stops a gradient is given, and
    logs every rectangle with the fill style in force.  Anything else is
    answered with a [TypeError]. *)
Module Canvas.

Record state : Type := State {
  self : positive;
  next : positive;
  gradients : gmap positive (list (value * value));
  props : gmap string value;
  painted : list (list value * value)
}.

Definition type_error : value := VStr "TypeError".

Definition read (c : state) (p : string) : value :=
  default VUndefined (props c !! p).

Definition create (c : state) : state * reply :=
  (State (self c) (Pos.succ (next c)) (<[next c := []]> (gradients c))
     (props c) (painted c),
   Returned (VObj (next c))).

Definition add_stop (c : state) (g : positive) (args : list value)
  : state * reply :=
  match gradients c !! g, args with
  | Some stops, [offset; color] =>
      (State (self c) (next c) (<[g := stops ++ [(offset, color)]]> (gradients c))
         (props c) (painted c),
       Returned VUndefined)
  | _, _ => (c, Thrown type_error)
  end.

Definition paint (c : state) (args : list value) : state * reply :=
  (State (self c) (next c) (gradients c) (props c)
     (painted c ++ [(args, read c "fillStyle")]),
   Returned VUndefined).

Definition store (c : state) (p : string) (v : value) : state * reply :=
  (State (self c) (next c) (gradients c) (<[p := v]> (props c)) (painted c),
   Returned VUndefined).

Definition respond (c : state) (q : request) : state * reply :=
  match q with
  | Invoke (VObj o) m args =>
      if String.eqb m "addColorStop" then add_stop c o args
      else if negb (Pos.eqb o (self c)) then (c, Thrown type_error)
      else if String.eqb m "createLinearGradient" then create c
      else if String.eqb m "fillRect" then paint c args
      else (c, Thrown type_error)
  | Assign (VObj o) p v =>
      if Pos.eqb o (self c) then store c p v else (c, Thrown type_error)
  | _ => (c, Thrown type_error)
  end.

(** A canvas nothing has been done to, and its context object. *)
Definition blank : state := State 1 2 ∅ ∅ [].
Definition context : value := VObj 1.

(** A canvas on which a caller has already chosen a line width and a
    fill colour. *)
Definition used : state :=
  State 1 2 ∅ (<["lineWidth" := VNum 3]> (<["fillStyle" := VStr "blue"]> ∅)) [].

(** A context that cannot make gradients: its [createLinearGradient]
    throws. *)
Definition broken (c : state) (q : request) : state * reply :=
  match q with
  | Invoke _ m _ =>
      if String.eqb m "createLinearGradient" then (c, Thrown (VStr "NotSupportedError"))
      else respond c q
  | _ => respond c q
  end.

(** A context whose rectangle fill throws once the fill style is set. *)
Definition fails_to_fill (c : state) (q : request) : state * reply :=
  match q with
  | Invoke _ m _ =>
      if String.eqb m "fillRect" then (c, Thrown (VStr "InvalidStateError"))
      else respond c q
  | _ => respond c q
  end.

End Canvas.

(** ** Callers *)

(** [color_gradient(color_gradient(ctx))]: the call chained on its own
    value. *)
Definition color_gradient_chained (ctx : value) : js value :=
  same ← color_gradient ctx; color_gradient same.

(** [for (let i = 0; i < n; i++) color_gradient(ctx);] followed by
    [return ctx]. *)
Fixpoint color_gradient_times (n : nat) (ctx : value) : js value :=
  match n with
  | O => mret ctx
  | S n' => color_gradient ctx;; color_gradient_times n' ctx
  end.

(** ** More of what a host may be held to *)

Definition nullish (v : value) : bool :=
  match v with
  | VUndefined | VNull => true
  | _ => false
  end.

(** The engine's rule for member access: [o.m(...)] with [o] [undefined]
    or [null] throws before anything is called. *)
Definition rejects_nullish {W : Type} (respond : W → request → W * reply) : Prop :=
  ∀ w o m args, nullish o = true →
    ∃ w' e, respond w (Invoke o m args) = (w', Thrown e).

(** [stops w o] stands for the colour stops object [o] carries in world
    [w], oldest first, and is empty for what is no gradient.  On the
    worlds [ok] holds of, a host keeps gradients as the canvas interface
    describes them: [createLinearGradient] returns an object that had no
    stops and has none, and leaves every other object's stops alone;
    [addColorStop(offset, color)] appends the stop to its receiver's and to
    no other's; assignments and [fillRect] change no stops. *)
Record gradient_store {W : Type} (respond : W → request → W * reply)
    (stops : W → value → list (value * value)) (ok : W → Prop) : Prop :=
  GradientStore {
  ok_kept : ∀ w q w' r, ok w → respond w q = (w', r) → ok w';
  create_fresh : ∀ w o args w' g,
    ok w → respond w (Invoke o "createLinearGradient" args) = (w', Returned g) →
    stops w g = [] ∧ stops w' g = [];
  create_frame : ∀ w o args w' r x,
    ok w → respond w (Invoke o "createLinearGradient" args) = (w', r) →
    r ≠ Returned x → stops w' x = stops w x;
  add_stop_appends : ∀ w g offset color w' u,
    ok w → respond w (Invoke g "addColorStop" [offset; color]) = (w', Returned u) →
    stops w' g = stops w g ++ [(offset, color)];
  add_stop_frame : ∀ w g args w' r x,
    ok w → respond w (Invoke g "addColorStop" args) = (w', r) →
    x ≠ g → stops w' x = stops w x;
  assign_keeps_stops : ∀ w o p v w' r x,
    ok w → respond w (Assign o p v) = (w', r) → stops w' x = stops w x;
  fill_keeps_stops : ∀ w o args w' r x,
    ok w → respond w (Invoke o "fillRect" args) = (w', r) → stops w' x = stops w x
}.

(** ** More test doubles *)

Module Doubles.

(** The stops the recording canvas holds for an object. *)
Definition stops (c : Canvas.state) (o : value) : list (value * value) :=
  match o with
  | VObj l => default [] (Canvas.gradients c !! l)
  | _ => []
  end.

(** The recording canvas allocates upwards: every gradient it holds lies
    below the next free location. *)
Definition well_formed (c : Canvas.state) : Prop :=
  ∀ l, is_Some (Canvas.gradients c !! l) → (l < Canvas.next c)%positive.

(** A stub whose [createLinearGradient] returns nothing, as a bare mock
    function does. *)
Definition stub (c : Canvas.state) (q : request) : Canvas.state * reply :=
  match q with
  | Invoke (VObj _) m _ =>
      if String.eqb m "createLinearGradient" then (c, Returned VUndefined)
      else Canvas.respond c q
  | _ => Canvas.respond c q
  end.

(** A fluent double: every method returns its receiver, every assignment
    is accepted, nothing is kept. *)
Definition echo (w : unit) (q : request) : unit * reply :=
  match q with
  | Invoke o _ _ => (w, Returned o)
  | Assign _ _ _ => (w, Returned VUndefined)
  end.

End Doubles.

(** ** The run of one call, step by step *)

(** Case analysis on the host's answer to the request the run is at. *)
Ltac answer :=
  match goal with
  | |- context [let '(_, _) := ?f ?w ?q in _] =>
      let w' := fresh "w" in
      let v := fresh "v" in
      let E := fresh "E" in
      destruct (f w q) as [w' [v | v]] eqn:E; cbn [trace final outcome]
  end.

Ltac walk := cbn; repeat (answer; cbn).

Section Host.

Context {W : Type} (respond : W → request → W * reply).

Lemma run_bind {A B} (m : js A) (f : A → js B) (w : W) :
  run respond (m ≫= f) w =
    let first := run respond m w in
    match outcome first with
    | Abrupt e => Result (trace first) (final first) (Abrupt e)
    | Normal a =>
        let second := run respond (f a) (final first) in
        Result (trace first ++ trace second) (final second) (outcome second)
    end.
Proof.
  revert w. induction m as [a | q k IH]; intros w.
  - cbn. by destruct (run respond (f a) w).
  - change (Ask q k ≫= f) with (Ask q (λ v, k v ≫= f)).
    cbn. destruct (respond w q) as [w' [v | e]]; [| done].
    rewrite IH. cbn. by destruct (outcome (run respond (k v) w')).
Qed.

(** A run ends normally exactly when the host answered every request. *)
Lemma normal_iff_answered {A} (p : js A) (w : W) :
  answered (trace (run respond p w)) = true ↔
  ∃ a, outcome (run respond p w) = Normal a.
Proof.
  revert w. induction p as [a | q k IH]; intros w; cbn.
  - split; eauto.
  - destruct (respond w q) as [w' [v | e]]; cbn.
    + apply IH.
    + split; [done | by intros [a ?]].
Qed.

(** A run that ends abruptly ends with the value the host threw at its
    last request, every earlier request having been answered. *)
Lemma abrupt_is_thrown {A} (p : js A) (w : W) (e : value) :
  outcome (run respond p w) = Abrupt e →
  ∃ tr q, trace (run respond p w) = tr ++ [(q, Thrown e)] ∧ answered tr = true.
Proof.
  revert w. induction p as [a | q k IH]; intros w; cbn; [done |].
  destruct (respond w q) as [w' [v | x]]; cbn.
  - intros H. destruct (IH v w' H) as (tr & q' & -> & Htr).
    by exists ((q, Returned v) :: tr), q'.
  - intros [= ->]. by exists [], q.
Qed.

(** A thrown answer is never swallowed. *)
Lemma thrown_is_abrupt {A} (p : js A) (w : W) (q : request) (e : value) :
  (q, Thrown e) ∈ trace (run respond p w) →
  outcome (run respond p w) = Abrupt e.
Proof.
  revert w. induction p as [a | q' k IH]; intros w; cbn.
  - by intros ?%elem_of_nil.
  - destruct (respond w q') as [w' [v | x]]; cbn.
    + intros [[=] | H]%elem_of_cons. by apply IH.
    + by intros [= _ ->]%list_elem_of_singleton.
Qed.

(** The five steps of a call the context answers throughout. *)
Lemma color_gradient_steps (w : W) (ctx : value) :
  answered (trace (run respond (color_gradient ctx) w)) = true →
  ∃ g u1 u2 u3 u4 w1 w2 w3 w4 w5,
    respond w (create_gradient ctx) = (w1, Returned g) ∧
    respond w1 (stop_red g) = (w2, Returned u1) ∧
    respond w2 (stop_black g) = (w3, Returned u2) ∧
    respond w3 (set_fill_style ctx g) = (w4, Returned u3) ∧
    respond w4 (fill_rect ctx) = (w5, Returned u4) ∧
    run respond (color_gradient ctx) w =
      Result [(create_gradient ctx, Returned g); (stop_red g, Returned u1);
              (stop_black g, Returned u2); (set_fill_style ctx g, Returned u3);
              (fill_rect ctx, Returned u4)] w5 (Normal ctx).
Proof.
  unfold create_gradient, stop_red, stop_black, set_fill_style, fill_rect.
  walk; try done.
  intros _. repeat eexists; eauto.
Qed.

Lemma color_gradient_script (w : W) (ctx : value) :
  answered (trace (run respond (color_gradient ctx) w)) = true →
  ∃ g, hands_out ctx g (trace (run respond (color_gradient ctx) w)) ∧
       requests (trace (run respond (color_gradient ctx) w)) = script ctx g ∧
       outcome (run respond (color_gradient ctx) w) = Normal ctx.
Proof.
  intros H. destruct (color_gradient_steps w ctx H)
    as (g & u1 & u2 & u3 & u4 & w1 & w2 & w3 & w4 & w5 & _ & _ & _ & _ & _ & ->).
  by exists g.
Qed.

End Host.

(** The recording canvas is a plain drawing context, whatever object is
    taken for the context. *)
Lemma canvas_plain_context (ctx : value) :
  plain_context Canvas.respond Canvas.read ctx.
Proof.
  split.
  - intros w p v w' u. destruct ctx; cbn; try done.
    destruct (Pos.eqb l (Canvas.self w)); [| done].
    intros [= <- _]. unfold Canvas.read. cbn. by rewrite lookup_insert_eq.
  - intros w p v w' r p' H Hp. destruct ctx; cbn in H; try by injection H as <- _.
    destruct (Pos.eqb l (Canvas.self w)); injection H as <- _; [| done].
    unfold Canvas.read. cbn. by rewrite lookup_insert_ne.
  - intros w o m args w' r p _ H. destruct o; cbn in H; try by injection H as <- _.
    unfold Canvas.add_stop in H.
    repeat case_match; by injection H as <- _.
Qed.

(** ** The claims *)

Section Claims.

Context {W : Type} (respond : W → request → W * reply).

Local Abbreviation call ctx w := (run respond (color_gradient ctx) w).

(** C1. When the context answers the call's requests, the call registers
    exactly two colour stops, both on the gradient the context handed
    out: (0, "red") first, (1, "black") second.  No other
    [addColorStop] is sent, to this or to any other object. *)
Theorem color_gradient_two_stops (w : W) (ctx : value) :
  answered (trace (call ctx w)) = true →
  ∃ g, hands_out ctx g (trace (call ctx w)) ∧
       List.filter (calls "addColorStop") (requests (trace (call ctx w))) =
         [Invoke g "addColorStop" [VNum 0; VStr "red"];
          Invoke g "addColorStop" [VNum 1; VStr "black"]].
Proof.
  intros H. destruct (color_gradient_script respond w ctx H) as (g & Hg & -> & _).
  by exists g.
Qed.

(** C2. When the context answers the call's requests, [fillRect] is
    invoked exactly once, on the context, with arguments
    (5, 0, 15, 180). *)
Theorem color_gradient_one_fill_rect (w : W) (ctx : value) :
  answered (trace (call ctx w)) = true →
  List.filter (calls "fillRect") (requests (trace (call ctx w))) =
    [Invoke ctx "fillRect" [VNum 5; VNum 0; VNum 15; VNum 180]].
Proof.
  intros H. by destruct (color_gradient_script respond w ctx H) as (g & _ & -> & _).
Qed.

(** C3. Whatever the context does, the call asks for
    [createLinearGradient] exactly once, on the context, with endpoint
    coordinates (0, 0, 0, 180). *)
Theorem color_gradient_one_gradient (w : W) (ctx : value) :
  List.filter (calls "createLinearGradient") (requests (trace (call ctx w))) =
    [Invoke ctx "createLinearGradient" [VNum 0; VNum 0; VNum 0; VNum 180]].
Proof. walk; reflexivity. Qed.

(** C4. When the context answers the call's requests, the fill style of
    the context is assigned the very object [createLinearGradient]
    returned, and the assignment is sent before [fillRect] is. *)
Theorem fill_style_before_fill_rect (w : W) (ctx : value) :
  answered (trace (call ctx w)) = true →
  ∃ g, hands_out ctx g (trace (call ctx w)) ∧
       sent_before (Assign ctx "fillStyle" g)
         (Invoke ctx "fillRect" [VNum 5; VNum 0; VNum 15; VNum 180])
         (requests (trace (call ctx w))).
Proof.
  intros H. destruct (color_gradient_script respond w ctx H) as (g & Hg & -> & _).
  exists g. split; [done |].
  exists [create_gradient ctx; stop_red g; stop_black g], [], [].
  split; [done |]. split; [| split; [done | apply not_elem_of_nil]].
  rewrite !not_elem_of_cons. unfold create_gradient, stop_red, stop_black.
  repeat split; try apply not_elem_of_nil; by intros [=].
Qed.

(** C5. When the context answers the call's requests, the call returns,
    and what it returns is the context it was given: the same value,
    hence for an object the same reference. *)
Theorem color_gradient_returns_ctx (w : W) (ctx : value) :
  answered (trace (call ctx w)) = true →
  outcome (call ctx w) = Normal ctx.
Proof.
  intros H. by destruct (color_gradient_script respond w ctx H) as (g & _ & _ & ->).
Qed.

(** C6. Two calls in a row on one context that answers throughout: the
    run is the first call followed by what a single call does from the
    world the first one left, so nothing is carried over inside the
    function.  Each call asks for its own gradient and sends the same
    script on the gradient it was handed: creation, the stops (0, "red")
    and (1, "black"), the fill style, one [fillRect(5, 0, 15, 180)]. *)
Theorem color_gradient_twice_same (w : W) (ctx : value) :
  answered (trace (run respond (color_gradient_twice ctx) w)) = true →
  ∃ g1 g2,
    trace (run respond (color_gradient_twice ctx) w) =
      trace (call ctx w) ++ trace (call ctx (final (call ctx w))) ∧
    hands_out ctx g1 (trace (call ctx w)) ∧
    requests (trace (call ctx w)) = script ctx g1 ∧
    hands_out ctx g2 (trace (call ctx (final (call ctx w)))) ∧
    requests (trace (call ctx (final (call ctx w)))) = script ctx g2 ∧
    outcome (run respond (color_gradient_twice ctx) w) = Normal ctx.
Proof.
  unfold color_gradient_twice. rewrite run_bind. cbn zeta.
  destruct (outcome (call ctx w)) as [r | e] eqn:Hout; cbn [trace outcome].
  - unfold answered. rewrite forallb_app, andb_true_iff. intros [H1 H2].
    destruct (color_gradient_script respond w ctx H1) as (g1 & ? & ? & _).
    destruct (color_gradient_script respond _ ctx H2) as (g2 & ? & ? & ?).
    by exists g1, g2.
  - intros H. apply normal_iff_answered in H as [a Ha]. congruence.
Qed.

(** C7. On a plain drawing context that answers the call's requests:
    the one assignment the call makes sets the fill style to the
    gradient, nothing is assigned afterwards to put an earlier style
    back, and in the world the call leaves the context's fill style
    still reads as that gradient. *)
Theorem fill_style_stays_set (read : W → string → value) (w : W) (ctx : value) :
  plain_context respond read ctx →
  answered (trace (call ctx w)) = true →
  ∃ g, hands_out ctx g (trace (call ctx w)) ∧
       List.filter assigns (requests (trace (call ctx w))) =
         [Assign ctx "fillStyle" g] ∧
       read (final (call ctx w)) "fillStyle" = g.
Proof.
  intros P H. destruct (color_gradient_steps respond w ctx H)
    as (g & u1 & u2 & u3 & u4 & w1 & w2 & w3 & w4 & w5
        & _ & _ & _ & Hset & Hfill & ->).
  exists g. repeat split. cbn.
  assert (Hm : "fillRect" ∈ drawing_methods) by (unfold drawing_methods; set_solver).
  rewrite (invoke_frame _ _ _ P _ _ _ _ _ _ "fillStyle" Hm Hfill).
  exact (assign_stores _ _ _ P _ _ _ _ _ Hset).
Qed.

(** C8. The call has no failure of its own and hides none of the
    context's.  If it ends abruptly, the value it throws is the value
    the context threw at the last request sent, all earlier requests
    having been answered; whichever request the context throws at, the
    call ends abruptly with that same value; and if the context throws
    at none, the call returns. *)
Theorem color_gradient_propagates (w : W) (ctx : value) :
  (∀ e, outcome (call ctx w) = Abrupt e →
        ∃ tr q, trace (call ctx w) = tr ++ [(q, Thrown e)] ∧ answered tr = true) ∧
  (∀ q e, (q, Thrown e) ∈ trace (call ctx w) → outcome (call ctx w) = Abrupt e) ∧
  (answered (trace (call ctx w)) = true → outcome (call ctx w) = Normal ctx).
Proof.
  split; [| split].
  - intros e. apply abrupt_is_thrown.
  - intros q e. apply thrown_is_abrupt.
  - intros H. by destruct (color_gradient_script respond w ctx H) as (g & _ & _ & ->).
Qed.

(** C9. When the context answers the call's requests, both colour stops
    are registered on the gradient before the gradient is assigned to
    the fill style, and that assignment is sent before [fillRect]. *)
Theorem stops_before_fill_style (w : W) (ctx : value) :
  answered (trace (call ctx w)) = true →
  ∃ g, hands_out ctx g (trace (call ctx w)) ∧
       sent_before (Invoke g "addColorStop" [VNum 0; VStr "red"])
         (Assign ctx "fillStyle" g) (requests (trace (call ctx w))) ∧
       sent_before (Invoke g "addColorStop" [VNum 1; VStr "black"])
         (Assign ctx "fillStyle" g) (requests (trace (call ctx w))) ∧
       sent_before (Assign ctx "fillStyle" g)
         (Invoke ctx "fillRect" [VNum 5; VNum 0; VNum 15; VNum 180])
         (requests (trace (call ctx w))).
Proof.
  intros H. destruct (color_gradient_script respond w ctx H) as (g & Hg & -> & _).
  exists g. split; [done |].
  unfold script, create_gradient, stop_red, stop_black, set_fill_style, fill_rect.
  split; [| split].
  - eexists [_], [_], [_]. split; [reflexivity |].
    rewrite !not_elem_of_cons. repeat split; try apply not_elem_of_nil; by intros [=].
  - eexists [_; _], [], [_]. split; [reflexivity |].
    rewrite !not_elem_of_cons. repeat split; try apply not_elem_of_nil; by intros [=].
  - eexists [_; _; _], [], []. split; [reflexivity |].
    rewrite !not_elem_of_cons. repeat split; try apply not_elem_of_nil; by intros [=].
Qed.

(** C10. On a plain drawing context, every property of the context
    other than the fill style reads after the call as it did before,
    however the call ends.  When the context answers the call's
    requests, the call sends the five requests of the script and nothing
    else; with the gradient an object other than the context, those
    addressed to the context are [createLinearGradient], the fill-style
    assignment and one [fillRect], and no other method of the context is
    invoked. *)
Theorem color_gradient_footprint (read : W → string → value) (w : W) (ctx : value) :
  plain_context respond read ctx →
  (∀ p, p ≠ "fillStyle" → read (final (call ctx w)) p = read w p) ∧
  (answered (trace (call ctx w)) = true →
   ∃ g, hands_out ctx g (trace (call ctx w)) ∧
        requests (trace (call ctx w)) = script ctx g ∧
        (g ≠ ctx →
         List.filter (addressed_to ctx) (requests (trace (call ctx w))) =
           [Invoke ctx "createLinearGradient" [VNum 0; VNum 0; VNum 0; VNum 180];
            Assign ctx "fillStyle" g;
            Invoke ctx "fillRect" [VNum 5; VNum 0; VNum 15; VNum 180]])).
Proof.
  intros P. split.
  - intros p Hp.
    assert (Hi : ∀ w0 o m args w' r,
               respond w0 (Invoke o m args) = (w', r) → m ∈ drawing_methods →
               read w' p = read w0 p)
      by (intros; eapply (invoke_frame _ _ _ P); eauto).
    assert (Ha : ∀ w0 v w' r,
               respond w0 (Assign ctx "fillStyle" v) = (w', r) → read w' p = read w0 p)
      by (intros; eapply (assign_frame _ _ _ P); eauto).
    walk;
      repeat match goal with
      | E : respond _ (Invoke _ _ _) = _ |- _ =>
          rewrite (Hi _ _ _ _ _ _ E) by (unfold drawing_methods; set_solver); clear E
      | E : respond _ (Assign _ _ _) = _ |- _ => rewrite (Ha _ _ _ _ E); clear E
      end; reflexivity.
  - intros H. destruct (color_gradient_script respond w ctx H) as (g & Hg & -> & _).
    exists g. repeat split; [done |].
    intros Hne. cbn. unfold addressed_to. cbn.
    rewrite !bool_decide_eq_true_2 by done.
    by rewrite !bool_decide_eq_false_2 by done.
Qed.

End Claims.

(** ** The call on the recording canvas *)

Example color_gradient_on_blank_canvas :
  run Canvas.respond (color_gradient Canvas.context) Canvas.blank =
    Result
      [(Invoke (VObj 1) "createLinearGradient" [VNum 0; VNum 0; VNum 0; VNum 180],
        Returned (VObj 2));
       (Invoke (VObj 2) "addColorStop" [VNum 0; VStr "red"], Returned VUndefined);
       (Invoke (VObj 2) "addColorStop" [VNum 1; VStr "black"], Returned VUndefined);
       (Assign (VObj 1) "fillStyle" (VObj 2), Returned VUndefined);
       (Invoke (VObj 1) "fillRect" [VNum 5; VNum 0; VNum 15; VNum 180],
        Returned VUndefined)]
      (Canvas.State 1 3 {[ 2%positive := [(VNum 0, VStr "red"); (VNum 1, VStr "black")] ]}
         {[ "fillStyle" := VObj 2 ]}
         [([VNum 5; VNum 0; VNum 15; VNum 180], VObj 2)])
      (Normal (VObj 1)).
Proof. vm_compute. reflexivity. Qed.

(** [color_gradient(null)]: the member lookup on [null] is the first and
    only request, and its [TypeError] is what the call throws. *)
Example color_gradient_on_null :
  run Canvas.respond (color_gradient VNull) Canvas.blank =
    Result
      [(Invoke VNull "createLinearGradient" [VNum 0; VNum 0; VNum 0; VNum 180],
        Thrown Canvas.type_error)]
      Canvas.blank (Abrupt Canvas.type_error).
Proof. reflexivity. Qed.

(** A context whose [createLinearGradient] throws: the call stops there
    and throws the same value; no stop is registered, nothing is filled. *)
Example color_gradient_on_broken_context :
  run Canvas.broken (color_gradient Canvas.context) Canvas.blank =
    Result
      [(Invoke (VObj 1) "createLinearGradient" [VNum 0; VNum 0; VNum 0; VNum 180],
        Thrown (VStr "NotSupportedError"))]
      Canvas.blank (Abrupt (VStr "NotSupportedError")).
Proof. reflexivity. Qed.

(** Two calls leave two gradients of two stops each and two rectangles. *)
Example color_gradient_twice_on_blank_canvas :
  final (run Canvas.respond (color_gradient_twice Canvas.context) Canvas.blank) =
    Canvas.State 1 4
      (<[ 3%positive := [(VNum 0, VStr "red"); (VNum 1, VStr "black")] ]>
         {[ 2%positive := [(VNum 0, VStr "red"); (VNum 1, VStr "black")] ]})
      {[ "fillStyle" := VObj 3 ]}
      [([VNum 5; VNum 0; VNum 15; VNum 180], VObj 2);
       ([VNum 5; VNum 0; VNum 15; VNum 180], VObj 3)].
Proof. vm_compute. reflexivity. Qed.

Lemma color_gradient_two_stops_witness :
  answered (trace (run Canvas.respond (color_gradient Canvas.context) Canvas.blank)) = true ∧
  ∃ g, hands_out Canvas.context g
         (trace (run Canvas.respond (color_gradient Canvas.context) Canvas.blank)) ∧
       List.filter (calls "addColorStop")
         (requests (trace (run Canvas.respond (color_gradient Canvas.context) Canvas.blank))) =
         [Invoke g "addColorStop" [VNum 0; VStr "red"];
          Invoke g "addColorStop" [VNum 1; VStr "black"]].
Proof.
  split; [reflexivity |].
  apply (color_gradient_two_stops Canvas.respond Canvas.blank Canvas.context).
  reflexivity.
Defined.

Lemma color_gradient_one_fill_rect_witness :
  answered (trace (run Canvas.respond (color_gradient Canvas.context) Canvas.used)) = true ∧
  List.filter (calls "fillRect")
    (requests (trace (run Canvas.respond (color_gradient Canvas.context) Canvas.used))) =
    [Invoke Canvas.context "fillRect" [VNum 5; VNum 0; VNum 15; VNum 180]].
Proof.
  split; [reflexivity |].
  apply (color_gradient_one_fill_rect Canvas.respond Canvas.used Canvas.context).
  reflexivity.
Defined.

Lemma fill_style_before_fill_rect_witness :
  answered (trace (run Canvas.respond (color_gradient Canvas.context) Canvas.blank)) = true ∧
  ∃ g, hands_out Canvas.context g
         (trace (run Canvas.respond (color_gradient Canvas.context) Canvas.blank)) ∧
       sent_before (Assign Canvas.context "fillStyle" g)
         (Invoke Canvas.context "fillRect" [VNum 5; VNum 0; VNum 15; VNum 180])
         (requests (trace (run Canvas.respond (color_gradient Canvas.context) Canvas.blank))).
Proof.
  split; [reflexivity |].
  apply (fill_style_before_fill_rect Canvas.respond Canvas.blank Canvas.context).
  reflexivity.
Defined.

Lemma color_gradient_returns_ctx_witness :
  answered (trace (run Canvas.respond (color_gradient Canvas.context) Canvas.used)) = true ∧
  outcome (run Canvas.respond (color_gradient Canvas.context) Canvas.used) =
    Normal Canvas.context.
Proof.
  split; [reflexivity |].
  apply (color_gradient_returns_ctx Canvas.respond Canvas.used Canvas.context).
  reflexivity.
Defined.

Lemma color_gradient_twice_same_witness :
  answered (trace (run Canvas.respond (color_gradient_twice Canvas.context) Canvas.blank)) = true ∧
  ∃ g1 g2,
    trace (run Canvas.respond (color_gradient_twice Canvas.context) Canvas.blank) =
      trace (run Canvas.respond (color_gradient Canvas.context) Canvas.blank) ++
      trace (run Canvas.respond (color_gradient Canvas.context)
               (final (run Canvas.respond (color_gradient Canvas.context) Canvas.blank))) ∧
    hands_out Canvas.context g1
      (trace (run Canvas.respond (color_gradient Canvas.context) Canvas.blank)) ∧
    requests (trace (run Canvas.respond (color_gradient Canvas.context) Canvas.blank)) =
      script Canvas.context g1 ∧
    hands_out Canvas.context g2
      (trace (run Canvas.respond (color_gradient Canvas.context)
                (final (run Canvas.respond (color_gradient Canvas.context) Canvas.blank)))) ∧
    requests
      (trace (run Canvas.respond (color_gradient Canvas.context)
                (final (run Canvas.respond (color_gradient Canvas.context) Canvas.blank)))) =
      script Canvas.context g2 ∧
    outcome (run Canvas.respond (color_gradient_twice Canvas.context) Canvas.blank) =
      Normal Canvas.context.
Proof.
  split; [reflexivity |].
  apply (color_gradient_twice_same Canvas.respond Canvas.blank Canvas.context).
  reflexivity.
Defined.

Lemma fill_style_stays_set_witness :
  Canvas.read Canvas.used "fillStyle" = VStr "blue" ∧
  answered (trace (run Canvas.respond (color_gradient Canvas.context) Canvas.used)) = true ∧
  ∃ g, hands_out Canvas.context g
         (trace (run Canvas.respond (color_gradient Canvas.context) Canvas.used)) ∧
       List.filter assigns
         (requests (trace (run Canvas.respond (color_gradient Canvas.context) Canvas.used))) =
         [Assign Canvas.context "fillStyle" g] ∧
       Canvas.read (final (run Canvas.respond (color_gradient Canvas.context) Canvas.used))
         "fillStyle" = g.
Proof.
  split; [reflexivity |]. split; [reflexivity |].
  apply (fill_style_stays_set Canvas.respond Canvas.read Canvas.used Canvas.context).
  - apply canvas_plain_context.
  - reflexivity.
Defined.

Lemma color_gradient_propagates_witness :
  (Invoke Canvas.context "fillRect" [VNum 5; VNum 0; VNum 15; VNum 180],
   Thrown (VStr "InvalidStateError"))
    ∈ trace (run Canvas.fails_to_fill (color_gradient Canvas.context) Canvas.blank) ∧
  outcome (run Canvas.fails_to_fill (color_gradient Canvas.context) Canvas.blank) =
    Abrupt (VStr "InvalidStateError").
Proof.
  assert (H : (Invoke Canvas.context "fillRect" [VNum 5; VNum 0; VNum 15; VNum 180],
               Thrown (VStr "InvalidStateError"))
              ∈ trace (run Canvas.fails_to_fill (color_gradient Canvas.context) Canvas.blank))
    by (apply (list_elem_of_lookup_2 _ 4%nat); reflexivity).
  split; [exact H |].
  exact (proj1 (proj2 (color_gradient_propagates Canvas.fails_to_fill Canvas.blank
                         Canvas.context)) _ _ H).
Defined.

Lemma stops_before_fill_style_witness :
  answered (trace (run Canvas.respond (color_gradient Canvas.context) Canvas.blank)) = true ∧
  ∃ g, hands_out Canvas.context g
         (trace (run Canvas.respond (color_gradient Canvas.context) Canvas.blank)) ∧
       sent_before (Invoke g "addColorStop" [VNum 0; VStr "red"])
         (Assign Canvas.context "fillStyle" g)
         (requests (trace (run Canvas.respond (color_gradient Canvas.context) Canvas.blank))) ∧
       sent_before (Invoke g "addColorStop" [VNum 1; VStr "black"])
         (Assign Canvas.context "fillStyle" g)
         (requests (trace (run Canvas.respond (color_gradient Canvas.context) Canvas.blank))) ∧
       sent_before (Assign Canvas.context "fillStyle" g)
         (Invoke Canvas.context "fillRect" [VNum 5; VNum 0; VNum 15; VNum 180])
         (requests (trace (run Canvas.respond (color_gradient Canvas.context) Canvas.blank))).
Proof.
  split; [reflexivity |].
  apply (stops_before_fill_style Canvas.respond Canvas.blank Canvas.context).
  reflexivity.
Defined.

Lemma color_gradient_footprint_witness :
  Canvas.read (final (run Canvas.respond (color_gradient Canvas.context) Canvas.used))
    "lineWidth" = VNum 3 ∧
  List.filter (addressed_to Canvas.context)
    (requests (trace (run Canvas.respond (color_gradient Canvas.context) Canvas.used))) =
    [Invoke Canvas.context "createLinearGradient" [VNum 0; VNum 0; VNum 0; VNum 180];
     Assign Canvas.context "fillStyle" (VObj 2);
     Invoke Canvas.context "fillRect" [VNum 5; VNum 0; VNum 15; VNum 180]].
Proof.
  destruct (color_gradient_footprint Canvas.respond Canvas.read Canvas.used Canvas.context
              (canvas_plain_context Canvas.context)) as [Hframe Hsent].
  split.
  - rewrite Hframe by discriminate. reflexivity.
  - destruct (Hsent eq_refl) as (g & Hg & _ & Hctx).
    injection Hg as <-. apply Hctx. discriminate.
Defined.

(** ** Beyond the answered call *)

Section Edges.

Context {W : Type} (respond : W → request → W * reply).

Local Abbreviation call ctx w := (run respond (color_gradient ctx) w).

(** X1. Whatever the context does, the call sends an initial part of the
    script and nothing else: either gradient creation threw and the
    creation request is all that was sent, or the requests are a prefix of
    the script for the gradient handed out.  No request is skipped,
    repeated or reordered, also in a call that fails. *)
Theorem color_gradient_script_prefix (w : W) (ctx : value) :
  (∃ e, trace (call ctx w) = [(create_gradient ctx, Thrown e)]) ∨
  (∃ g, hands_out ctx g (trace (call ctx w)) ∧
        requests (trace (call ctx w)) `prefix_of` script ctx g).
Proof.
  unfold hands_out, script, create_gradient, stop_red, stop_black,
    set_fill_style, fill_rect.
  walk; [right; eexists; split; [reflexivity | eexists; reflexivity] .. | left; eauto].
Qed.

(** X2. On a plain drawing context, a call that ends without having sent
    the fill-style assignment (creation or a colour stop threw) leaves
    every property of the context, the fill style included, reading as
    before the call. *)
Theorem failed_call_keeps_fill_style (read : W → string → value) (w : W) (ctx : value) :
  plain_context respond read ctx →
  List.filter assigns (requests (trace (call ctx w))) = [] →
  ∀ p, read (final (call ctx w)) p = read w p.
Proof.
  intros P.
  assert (Hi : ∀ p w0 o m args w' r,
             respond w0 (Invoke o m args) = (w', r) → m ∈ drawing_methods →
             read w' p = read w0 p)
    by (intros; eapply (invoke_frame _ _ _ P); eauto).
  walk; intros Hno p; try discriminate Hno;
    repeat match goal with
    | E : respond _ (Invoke _ _ _) = _ |- _ =>
        rewrite (Hi p _ _ _ _ _ _ E) by (unfold drawing_methods; set_solver); clear E
    end; reflexivity.
Qed.

(** X3. [fillRect] is the call's last effect: once a [fillRect] request
    has been answered, the call returns the context.  Put the other way
    round, a call that throws has completed no [fillRect]. *)
Theorem answered_fill_rect_returns (w : W) (ctx : value) (q : request) (v : value) :
  calls "fillRect" q = true →
  (q, Returned v) ∈ trace (call ctx w) →
  outcome (call ctx w) = Normal ctx.
Proof.
  intros Hc. walk; intros Hin; try reflexivity;
    repeat (apply elem_of_cons in Hin as [Hin | Hin];
            [simplify_eq; cbn in Hc; discriminate Hc |]);
    by apply elem_of_nil in Hin.
Qed.

(** X4. On a plain drawing context that answers the call, the worlds of
    the run follow the five statements one after the other, and in the
    world in which [fillRect] is answered the context's fill style reads
    as the gradient: the rectangle is painted with the gradient. *)
Theorem fill_rect_paints_gradient (read : W → string → value) (w : W) (ctx : value) :
  plain_context respond read ctx →
  answered (trace (call ctx w)) = true →
  ∃ g u1 u2 u3 u4 w1 w2 w3 w4,
    respond w (create_gradient ctx) = (w1, Returned g) ∧
    respond w1 (stop_red g) = (w2, Returned u1) ∧
    respond w2 (stop_black g) = (w3, Returned u2) ∧
    respond w3 (set_fill_style ctx g) = (w4, Returned u3) ∧
    respond w4 (fill_rect ctx) = (final (call ctx w), Returned u4) ∧
    read w4 "fillStyle" = g.
Proof.
  intros P H. destruct (color_gradient_steps respond w ctx H)
    as (g & u1 & u2 & u3 & u4 & w1 & w2 & w3 & w4 & w5
        & H1 & H2 & H3 & H4 & H5 & ->).
  exists g, u1, u2, u3, u4, w1, w2, w3, w4. repeat split; try done.
  exact (assign_stores _ _ _ P _ _ _ _ _ H4).
Qed.

(** X7. Chaining the call on its own value, [color_gradient(
    color_gradient(ctx))], runs on every host exactly as two calls on
    [ctx] in a row do: same requests, same final world, same outcome. *)
Theorem color_gradient_chains (w : W) (ctx : value) :
  run respond (color_gradient_chained ctx) w =
  run respond (color_gradient_twice ctx) w.
Proof.
  unfold color_gradient_chained, color_gradient_twice. rewrite !run_bind. cbn zeta.
  destruct (outcome (call ctx w)) as [r | e] eqn:Hout; [| done].
  assert (H : answered (trace (call ctx w)) = true)
    by (apply normal_iff_answered; eauto).
  destruct (color_gradient_script respond w ctx H) as (g & _ & _ & Hctx).
  rewrite Hctx in Hout. by injection Hout as <-.
Qed.

(** X9. When the context hands out itself as the gradient, as a fluent
    double does, the colour stops are registered on the context: all five
    requests of the call are addressed to it. *)
Theorem self_gradient_receives_stops (w : W) (ctx : value) :
  answered (trace (call ctx w)) = true →
  hands_out ctx ctx (trace (call ctx w)) →
  List.filter (addressed_to ctx) (requests (trace (call ctx w))) = script ctx ctx.
Proof.
  intros H Hself. destruct (color_gradient_script respond w ctx H) as (g & Hg & Hs & _).
  unfold hands_out in Hg, Hself. rewrite Hg in Hself. injection Hself as ->.
  rewrite Hs. unfold script, addressed_to. cbn.
  by rewrite !bool_decide_eq_true_2 by done.
Qed.

(** X10. When [createLinearGradient] returns [undefined] or [null], the
    call throws at the first [addColorStop], with the engine's exception:
    the second stop, the fill-style assignment and [fillRect] are never
    sent. *)
Theorem nullish_gradient_throws (w w1 : W) (ctx g : value) :
  rejects_nullish respond →
  respond w (create_gradient ctx) = (w1, Returned g) →
  nullish g = true →
  ∃ w2 e,
    call ctx w =
      Result [(create_gradient ctx, Returned g); (stop_red g, Thrown e)] w2 (Abrupt e).
Proof.
  intros R E Hn.
  destruct (R w1 g "addColorStop" [VNum 0; VStr "red"] Hn) as (w2 & e & E2).
  exists w2, e. unfold create_gradient in E. cbn. rewrite E. cbn. by rewrite E2.
Qed.

End Edges.

(** ** Gradients as the context keeps them *)

Section Gradients.

Context {W : Type} (respond : W → request → W * reply).
Context (stops : W → value → list (value * value)) (ok : W → Prop).

Local Abbreviation call ctx w := (run respond (color_gradient ctx) w).

(** One answered call on a host that keeps gradients: the gradient is new,
    ends with the two stops, and no other object's stops move. *)
Lemma call_builds_gradient (w : W) (ctx : value) :
  gradient_store respond stops ok →
  ok w →
  answered (trace (call ctx w)) = true →
  ∃ g, hands_out ctx g (trace (call ctx w)) ∧
       stops w g = [] ∧
       stops (final (call ctx w)) g = [(VNum 0, VStr "red"); (VNum 1, VStr "black")] ∧
       ok (final (call ctx w)) ∧
       ∀ x, x ≠ g → stops (final (call ctx w)) x = stops w x.
Proof.
  intros G Hok H. destruct (color_gradient_steps respond w ctx H)
    as (g & u1 & u2 & u3 & u4 & w1 & w2 & w3 & w4 & w5
        & H1 & H2 & H3 & H4 & H5 & ->).
  unfold create_gradient, stop_red, stop_black, set_fill_style, fill_rect in *.
  pose proof (ok_kept _ _ _ G _ _ _ _ Hok H1) as Hok1.
  pose proof (ok_kept _ _ _ G _ _ _ _ Hok1 H2) as Hok2.
  pose proof (ok_kept _ _ _ G _ _ _ _ Hok2 H3) as Hok3.
  pose proof (ok_kept _ _ _ G _ _ _ _ Hok3 H4) as Hok4.
  pose proof (ok_kept _ _ _ G _ _ _ _ Hok4 H5) as Hok5.
  destruct (create_fresh _ _ _ G _ _ _ _ _ Hok H1) as [Hnew Hnone].
  exists g. cbn. repeat split; try done.
  - rewrite (fill_keeps_stops _ _ _ G _ _ _ _ _ g Hok4 H5).
    rewrite (assign_keeps_stops _ _ _ G _ _ _ _ _ _ g Hok3 H4).
    rewrite (add_stop_appends _ _ _ G _ _ _ _ _ _ Hok2 H3).
    rewrite (add_stop_appends _ _ _ G _ _ _ _ _ _ Hok1 H2).
    by rewrite Hnone.
  - intros x Hx.
    rewrite (fill_keeps_stops _ _ _ G _ _ _ _ _ x Hok4 H5).
    rewrite (assign_keeps_stops _ _ _ G _ _ _ _ _ _ x Hok3 H4).
    rewrite (add_stop_frame _ _ _ G _ _ _ _ _ x Hok2 H3 Hx).
    rewrite (add_stop_frame _ _ _ G _ _ _ _ _ x Hok1 H2 Hx).
    apply (create_frame _ _ _ G _ _ _ _ _ x Hok H1). congruence.
Qed.

(** X5. On a host that keeps gradients as the canvas interface describes
    and answers the call, the gradient handed out carries in the final
    world exactly the stops (0, "red") and (1, "black"), in that order,
    and the stops of every other object are as they were. *)
Theorem gradient_has_two_stops (w : W) (ctx : value) :
  gradient_store respond stops ok →
  ok w →
  answered (trace (call ctx w)) = true →
  ∃ g, hands_out ctx g (trace (call ctx w)) ∧
       stops (final (call ctx w)) g = [(VNum 0, VStr "red"); (VNum 1, VStr "black")] ∧
       ∀ x, x ≠ g → stops (final (call ctx w)) x = stops w x.
Proof.
  intros G Hok H.
  destruct (call_builds_gradient w ctx G Hok H) as (g & ? & _ & ? & _ & ?).
  by exists g.
Qed.

(** X6. On such a host, two answered calls in a row build two different
    gradient objects, and after the second call each of the two carries
    exactly the two stops: the second call adds nothing to the first
    call's gradient. *)
Theorem two_calls_two_gradients (w : W) (ctx : value) :
  gradient_store respond stops ok →
  ok w →
  answered (trace (run respond (color_gradient_twice ctx) w)) = true →
  ∃ g1 g2,
    hands_out ctx g1 (trace (call ctx w)) ∧
    hands_out ctx g2 (trace (call ctx (final (call ctx w)))) ∧
    g1 ≠ g2 ∧
    stops (final (run respond (color_gradient_twice ctx) w)) g1 =
      [(VNum 0, VStr "red"); (VNum 1, VStr "black")] ∧
    stops (final (run respond (color_gradient_twice ctx) w)) g2 =
      [(VNum 0, VStr "red"); (VNum 1, VStr "black")].
Proof.
  intros G Hok. unfold color_gradient_twice. rewrite run_bind. cbn zeta.
  destruct (outcome (call ctx w)) as [r | e] eqn:Hout; cbn [trace final].
  - unfold answered. rewrite forallb_app, andb_true_iff. intros [H1 H2].
    destruct (call_builds_gradient w ctx G Hok H1) as (g1 & Hg1 & _ & Hs1 & Hok1 & _).
    destruct (call_builds_gradient _ ctx G Hok1 H2) as (g2 & Hg2 & Hnew & Hs2 & _ & Hfr).
    assert (Hne : g1 ≠ g2) by (intros ->; rewrite Hs1 in Hnew; discriminate).
    exists g1, g2. repeat split; try done.
    by rewrite (Hfr g1 Hne).
  - intros H. apply normal_iff_answered in H as [a Ha]. congruence.
Qed.

End Gradients.

Section Repeated.

Context {W : Type} (respond : W → request → W * reply).

(** X8. Any number of calls in a row on a context that answers them all:
    the run returns the context after five requests per call, with one
    gradient creation and one [fillRect(5, 0, 15, 180)] per call, two
    colour stops per call and one assignment per call. *)
Theorem color_gradient_times_counts (n : nat) (w : W) (ctx : value) :
  answered (trace (run respond (color_gradient_times n ctx) w)) = true →
  outcome (run respond (color_gradient_times n ctx) w) = Normal ctx ∧
  length (trace (run respond (color_gradient_times n ctx) w)) = (5 * n)%nat ∧
  List.filter (calls "createLinearGradient")
    (requests (trace (run respond (color_gradient_times n ctx) w))) =
    replicate n (create_gradient ctx) ∧
  List.filter (calls "fillRect")
    (requests (trace (run respond (color_gradient_times n ctx) w))) =
    replicate n (fill_rect ctx) ∧
  length (List.filter (calls "addColorStop")
            (requests (trace (run respond (color_gradient_times n ctx) w)))) = (2 * n)%nat ∧
  length (List.filter assigns
            (requests (trace (run respond (color_gradient_times n ctx) w)))) = n.
Proof.
  revert w. induction n as [| n IH]; intros w; [done |].
  change (color_gradient_times (S n) ctx)
    with (color_gradient ctx ≫= λ _, color_gradient_times n ctx).
  rewrite run_bind. cbn zeta.
  destruct (outcome (run respond (color_gradient ctx) w)) as [r | e] eqn:Hout;
    cbn [trace final outcome].
  - unfold answered. rewrite forallb_app, andb_true_iff. intros [H1 H2].
    destruct (color_gradient_steps respond w ctx H1)
      as (g & u1 & u2 & u3 & u4 & w1 & w2 & w3 & w4 & w5
          & _ & _ & _ & _ & _ & Hrun).
    rewrite Hrun in *. cbn [trace final] in *.
    destruct (IH _ H2) as (Ho & Hl & Hc & Hf & Ha & Hp).
    unfold requests in *. rewrite fmap_app, !List.filter_app, !length_app.
    rewrite Hc, Hf, Ha, Hp, Hl.
    repeat split; try done; cbn; lia.
  - intros H. apply normal_iff_answered in H as [a Ha]. congruence.
Qed.

End Repeated.

(** ** The doubles meet what the theorems ask of a host *)

Lemma blank_well_formed : Doubles.well_formed Canvas.blank.
Proof. intros l [x Hx]. cbn in Hx. by rewrite lookup_empty in Hx. Qed.

Lemma canvas_gradient_store :
  gradient_store Canvas.respond Doubles.stops Doubles.well_formed.
Proof.
  split.
  - intros w q w' r Hok E l.
    unfold Canvas.respond, Canvas.add_stop, Canvas.create, Canvas.paint,
      Canvas.store in E.
    repeat case_match; simplify_eq; cbn; try apply Hok.
    all: rewrite lookup_insert; case_decide; subst.
    all: first [ solve [apply Hok]
               | solve [intros _; apply Hok; eauto]
               | solve [intros _; lia]
               | solve [intros Hl%Hok; lia] ].
  - intros w o args w' g Hok E. destruct o; cbn in E; try discriminate E.
    destruct (negb (l =? Canvas.self w)%positive); [discriminate E |].
    injection E as <- <-. cbn. rewrite lookup_insert_eq. split; [| done].
    destruct (Canvas.gradients w !! Canvas.next w) eqn:Hn; [| done].
    assert (Canvas.next w < Canvas.next w)%positive by (apply Hok; eauto). lia.
  - intros w o args w' r x Hok E Hx. destruct o; cbn in E; try by injection E as <- _.
    destruct (negb (l =? Canvas.self w)%positive); [by injection E as <- _ |].
    injection E as <- <-. destruct x; try done. cbn.
    rewrite lookup_insert_ne; [done | congruence].
  - intros w g offset color w' u Hok E. destruct g; cbn in E; try discriminate E.
    unfold Canvas.add_stop in E.
    destruct (Canvas.gradients w !! l) eqn:Hl; [| discriminate E].
    injection E as <- _. cbn. by rewrite lookup_insert_eq, Hl.
  - intros w g args w' r x Hok E Hx. destruct g; cbn in E; try by injection E as <- _.
    unfold Canvas.add_stop in E.
    repeat case_match; simplify_eq; try done.
    destruct x; try done. cbn. rewrite lookup_insert_ne; [done | congruence].
  - intros w o p v w' r x Hok E. destruct o; cbn in E; try by injection E as <- _.
    destruct (l =? Canvas.self w)%positive; by injection E as <- _.
  - intros w o args w' r x Hok E. destruct o; cbn in E; try by injection E as <- _.
    destruct (negb (l =? Canvas.self w)%positive); by injection E as <- _.
Qed.

Lemma broken_plain_context (ctx : value) :
  plain_context Canvas.broken Canvas.read ctx.
Proof.
  destruct (canvas_plain_context ctx) as [Hs Hf Hi]. split.
  - exact Hs.
  - exact Hf.
  - intros w o m args w' r p Hm. unfold Canvas.broken.
    destruct (String.eqb m "createLinearGradient"); [by intros [= <- _] |].
    by apply Hi.
Qed.

Lemma stub_rejects_nullish : rejects_nullish Doubles.stub.
Proof.
  intros w o m args Ho. exists w, Canvas.type_error.
  by destruct o.
Qed.

(** ** The edge cases on the doubles *)

Lemma failed_call_keeps_fill_style_witness :
  List.filter assigns
    (requests (trace (run Canvas.broken (color_gradient Canvas.context) Canvas.used))) = [] ∧
  ∀ p, Canvas.read (final (run Canvas.broken (color_gradient Canvas.context) Canvas.used)) p =
       Canvas.read Canvas.used p.
Proof.
  split; [reflexivity |].
  apply (failed_call_keeps_fill_style Canvas.broken Canvas.read Canvas.used Canvas.context).
  - apply broken_plain_context.
  - reflexivity.
Defined.

Lemma answered_fill_rect_returns_witness :
  calls "fillRect" (fill_rect Canvas.context) = true ∧
  (fill_rect Canvas.context, Returned VUndefined)
    ∈ trace (run Canvas.respond (color_gradient Canvas.context) Canvas.blank) ∧
  outcome (run Canvas.respond (color_gradient Canvas.context) Canvas.blank) =
    Normal Canvas.context.
Proof.
  assert (H : (fill_rect Canvas.context, Returned VUndefined)
              ∈ trace (run Canvas.respond (color_gradient Canvas.context) Canvas.blank))
    by (apply (list_elem_of_lookup_2 _ 4%nat); reflexivity).
  split; [reflexivity |]. split; [exact H |].
  exact (answered_fill_rect_returns Canvas.respond Canvas.blank Canvas.context
           (fill_rect Canvas.context) VUndefined eq_refl H).
Defined.

Lemma fill_rect_paints_gradient_witness :
  answered (trace (run Canvas.respond (color_gradient Canvas.context) Canvas.used)) = true ∧
  ∃ g u1 u2 u3 u4 w1 w2 w3 w4,
    Canvas.respond Canvas.used (create_gradient Canvas.context) = (w1, Returned g) ∧
    Canvas.respond w1 (stop_red g) = (w2, Returned u1) ∧
    Canvas.respond w2 (stop_black g) = (w3, Returned u2) ∧
    Canvas.respond w3 (set_fill_style Canvas.context g) = (w4, Returned u3) ∧
    Canvas.respond w4 (fill_rect Canvas.context) =
      (final (run Canvas.respond (color_gradient Canvas.context) Canvas.used), Returned u4) ∧
    Canvas.read w4 "fillStyle" = g.
Proof.
  split; [reflexivity |].
  apply (fill_rect_paints_gradient Canvas.respond Canvas.read Canvas.used Canvas.context).
  - apply canvas_plain_context.
  - reflexivity.
Defined.

Lemma gradient_has_two_stops_witness :
  answered (trace (run Canvas.respond (color_gradient Canvas.context) Canvas.blank)) = true ∧
  ∃ g, hands_out Canvas.context g
         (trace (run Canvas.respond (color_gradient Canvas.context) Canvas.blank)) ∧
       Doubles.stops (final (run Canvas.respond (color_gradient Canvas.context) Canvas.blank)) g =
         [(VNum 0, VStr "red"); (VNum 1, VStr "black")] ∧
       ∀ x, x ≠ g →
         Doubles.stops (final (run Canvas.respond (color_gradient Canvas.context) Canvas.blank)) x =
         Doubles.stops Canvas.blank x.
Proof.
  split; [reflexivity |].
  apply (gradient_has_two_stops Canvas.respond Doubles.stops Doubles.well_formed
           Canvas.blank Canvas.context).
  - apply canvas_gradient_store.
  - apply blank_well_formed.
  - reflexivity.
Defined.

Lemma two_calls_two_gradients_witness :
  answered (trace (run Canvas.respond (color_gradient_twice Canvas.context) Canvas.blank)) = true ∧
  ∃ g1 g2,
    hands_out Canvas.context g1
      (trace (run Canvas.respond (color_gradient Canvas.context) Canvas.blank)) ∧
    hands_out Canvas.context g2
      (trace (run Canvas.respond (color_gradient Canvas.context)
                (final (run Canvas.respond (color_gradient Canvas.context) Canvas.blank)))) ∧
    g1 ≠ g2 ∧
    Doubles.stops
      (final (run Canvas.respond (color_gradient_twice Canvas.context) Canvas.blank)) g1 =
      [(VNum 0, VStr "red"); (VNum 1, VStr "black")] ∧
    Doubles.stops
      (final (run Canvas.respond (color_gradient_twice Canvas.context) Canvas.blank)) g2 =
      [(VNum 0, VStr "red"); (VNum 1, VStr "black")].
Proof.
  split; [reflexivity |].
  apply (two_calls_two_gradients Canvas.respond Doubles.stops Doubles.well_formed
           Canvas.blank Canvas.context).
  - apply canvas_gradient_store.
  - apply blank_well_formed.
  - reflexivity.
Defined.

Lemma color_gradient_times_counts_witness :
  answered (trace (run Canvas.respond (color_gradient_times 3 Canvas.context) Canvas.blank)) = true ∧
  outcome (run Canvas.respond (color_gradient_times 3 Canvas.context) Canvas.blank) =
    Normal Canvas.context ∧
  length (trace (run Canvas.respond (color_gradient_times 3 Canvas.context) Canvas.blank)) =
    15%nat.
Proof.
  split; [reflexivity |].
  destruct (color_gradient_times_counts Canvas.respond 3 Canvas.blank Canvas.context eq_refl)
    as (Hout & Hlen & _).
  split; [exact Hout | exact Hlen].
Defined.

Lemma self_gradient_receives_stops_witness :
  answered (trace (run Doubles.echo (color_gradient (VObj 1)) tt)) = true ∧
  hands_out (VObj 1) (VObj 1) (trace (run Doubles.echo (color_gradient (VObj 1)) tt)) ∧
  List.filter (addressed_to (VObj 1))
    (requests (trace (run Doubles.echo (color_gradient (VObj 1)) tt))) =
    script (VObj 1) (VObj 1).
Proof.
  split; [reflexivity |]. split; [reflexivity |].
  apply (self_gradient_receives_stops Doubles.echo tt (VObj 1)); reflexivity.
Defined.

Lemma nullish_gradient_throws_witness :
  Doubles.stub Canvas.blank (create_gradient Canvas.context) =
    (Canvas.blank, Returned VUndefined) ∧
  ∃ w2 e,
    run Doubles.stub (color_gradient Canvas.context) Canvas.blank =
      Result [(create_gradient Canvas.context, Returned VUndefined);
              (stop_red VUndefined, Thrown e)] w2 (Abrupt e).
Proof.
  split; [reflexivity |].
  apply (nullish_gradient_throws Doubles.stub Canvas.blank Canvas.blank Canvas.context
           VUndefined).
  - apply stub_rejects_nullish.
  - reflexivity.
  - reflexivity.
Defined.
